(** * A shallow embedding of mace/utils/tuner.h (class [mace::Tuner])

    The tuner selects, caches and replays parameter vectors for kernels.
    The model follows the header function by function:
    - [IsTuning], [TuneOrRun], [Run], [Tune], [WriteRunParameters],
      [ReadRunParamters], the constructor [Tuner_init], and the life of
      the singleton from [Get()] to the destructor [Tuner_process];
    - the process environment, the parameter table [param_table_], the
      warnings printed by [LOG(WARNING)], the files on disk and the log of
      every kernel invocation are fields of one state record [World];
    - [param_type] is [unsigned int] (the only instantiation for which the
      constructor's call to [GetTuningParams] type-checks), a value is a [Z]
      and its object representation is 4 little-endian bytes. *)

From Stdlib Require Import ZArith QArith String Ascii Strings.Byte.
From stdpp Require Import base list gmap strings.

Local Open Scope Z_scope.

(** ** Fixed-width integers *)

(** Two's complement wrap-around of a 64-bit signed integer ([int64_t]). *)
Definition int64_wrap (z : Z) : Z := (z + 2 ^ 63) mod 2 ^ 64 - 2 ^ 63.

Definition sizeof_int64 : nat := 8.
Definition sizeof_int32 : nat := 4.
(** [sizeof(param_type)] for [param_type = unsigned int]. *)
Definition sizeof_param_type : nat := 4.

(** ** Doubles

    Timings are doubles.  A mean time [total_time_us * 1.0 / num_runs] is
    kept as the exact rational [total # num_runs] (the rounding of the
    conversion and the division is not modelled); the double type also has
    [+infinity], which the code never produces. *)
Inductive xdouble : Type :=
  | XFin (q : Q)
  | XPosInf.

Definition xlt (a b : xdouble) : bool :=
  match a, b with
  | XFin x, XFin y => match Qcompare x y with Lt => true | _ => false end
  | XFin _, XPosInf => true
  | XPosInf, _ => false
  end.

(** [std::numeric_limits<double>::max()] = (2^53 - 1) * 2^971. *)
Definition dbl_max : Q := inject_Z ((2 ^ 53 - 1) * 2 ^ 971).

(** ** Environment *)

(** [IsTuning]: [getenv("MACE_TUNING")] is non-null, of length 1 and its
    first character is ['1']. *)
Definition IsTuning (tuning : option string) : bool :=
  match tuning with
  | Some s =>
      Nat.eqb (String.length s) 1 &&
      match String.get 0 s with
      | Some c => if ascii_dec c "1"%char then true else false
      | None => false
      end
  | None => false
  end.

(** ** Bytes

    Host byte order is little-endian (the targets of the library). *)
Definition byte_of_Z (z : Z) : byte :=
  match Byte.of_N (Z.to_N (Z.land z 255)) with Some b => b | None => Byte.x00 end.

(** The [n] little-endian bytes of the low [8 * n] bits of [z]. *)
Fixpoint le_bytes (n : nat) (z : Z) : list byte :=
  match n with
  | O => []
  | S n' => byte_of_Z z :: le_bytes n' (Z.shiftr z 8)
  end.

(** The object representation of a [param_type] value. *)
Definition param_bytes (param : Z) : list byte := le_bytes sizeof_param_type param.

(** The body of the loop over [param_table_] in [WriteRunParameters], for
    one entry [kp]: the [int32_t] key size, the key's characters, the
    [int32_t] [params_size = params.size() * sizeof(param_type)], then for
    each parameter [ofs.write(reinterpret_cast<char *>(&param),
    sizeof(params_size))], i.e. the first [sizeof(int32_t)] bytes of its
    object representation. *)
Definition write_entry (kp : string * list Z) : list byte :=
  let key_size := Z.of_nat (String.length kp.1) in
  let params := kp.2 in
  let params_size := Z.of_nat (length params * sizeof_param_type) in
  le_bytes sizeof_int32 key_size ++ list_byte_of_string kp.1 ++
  le_bytes sizeof_int32 params_size ++
  concat (map (fun param => take sizeof_int32 (param_bytes param)) params).

(** What [WriteRunParameters] writes to the stream for the entries of
    [param_table_] in iteration order ([int64_t num_pramas] first). *)
Definition serialize_table (entries : list (string * list Z)) : list byte :=
  le_bytes sizeof_int64 (Z.of_nat (length entries)) ++ concat (map write_entry entries).

(** ** Reading the persisted format *)

(** Modelled from the spec: the reader of the persisted file (the code of
    [GetTuningParams] is not in this header).  It follows the layout of the
    spec: [int64 entry_count], then per entry [int32 key_byte_length], the
    key bytes, [int32 payload_byte_length] and [payload_byte_length] bytes
    holding [payload_byte_length / sizeof(param_type)] values; integers are
    read little-endian. *)
Fixpoint Z_of_le (bs : list byte) : Z :=
  match bs with
  | [] => 0
  | b :: bs' => Z.of_N (Byte.to_N b) + 256 * Z_of_le bs'
  end.

Definition read_bytes (n : nat) (bs : list byte) : option (list byte * list byte) :=
  if decide (n <= length bs)%nat then Some (take n bs, drop n bs) else None.

Definition read_int (n : nat) (bs : list byte) : option (Z * list byte) :=
  match read_bytes n bs with
  | Some (b, rest) => Some (Z_of_le b, rest)
  | None => None
  end.

Fixpoint read_params (n : nat) (bs : list byte) : option (list Z * list byte) :=
  match n with
  | O => Some ([], bs)
  | S n' =>
      match read_int sizeof_param_type bs with
      | Some (v, bs1) =>
          match read_params n' bs1 with
          | Some (vs, bs2) => Some (v :: vs, bs2)
          | None => None
          end
      | None => None
      end
  end.

Definition read_entry (bs : list byte) : option ((string * list Z) * list byte) :=
  match read_int sizeof_int32 bs with
  | Some (key_size, bs1) =>
      match read_bytes (Z.to_nat key_size) bs1 with
      | Some (key, bs2) =>
          match read_int sizeof_int32 bs2 with
          | Some (params_size, bs3) =>
              match read_bytes (Z.to_nat params_size) bs3 with
              | Some (payload, bs4) =>
                  match read_params (length payload / sizeof_param_type) payload with
                  | Some (params, []) => Some ((string_of_list_byte key, params), bs4)
                  | _ => None
                  end
              | None => None
              end
          | None => None
          end
      | None => None
      end
  | None => None
  end.

Fixpoint read_entries (n : nat) (bs : list byte)
    : option (list (string * list Z) * list byte) :=
  match n with
  | O => Some ([], bs)
  | S n' =>
      match read_entry bs with
      | Some (e, bs1) =>
          match read_entries n' bs1 with
          | Some (es, bs2) => Some (e :: es, bs2)
          | None => None
          end
      | None => None
      end
  end.

Definition read_table (bs : list byte) : option (list (string * list Z)) :=
  match read_int sizeof_int64 bs with
  | Some (n, bs1) =>
      match read_entries (Z.to_nat n) bs1 with
      | Some (es, _) => Some es
      | None => None
      end
  | None => None
  end.

Section Tuner.

(** [RetType] of [TuneOrRun]; [RetType_init] is the value of the
    default-initialised local [RetType res;] of [Run] and [Tune]. *)
Context {RetType : Type} (RetType_init : RetType).
(** [MACE_OBFUSCATE_SYMBOL], a deterministic string transform. *)
Context (obfuscate : string -> string).
(** Whether the build defines [MACE_DISABLE_NO_TUNING_WARNING]. *)
Context (MACE_DISABLE_NO_TUNING_WARNING : bool).

(** One invocation of a kernel function [func(params, timer, out)], as
    observed: the arguments, the content of the output buffer after the
    call ([None] for a null buffer), the returned value and the timer's
    [AccumulatedMicros()] after the call (an [int64_t]). *)
Record Call : Type := mkCall {
  call_params : list Z;
  call_timer : bool;
  call_out : option (list Z);
  call_res : RetType;
  call_micros : Z
}.

(** What the kernel does on one call: its result, the timer reading it
    leaves, and what it leaves in the output buffer. *)
Record KernelOut : Type := mkKernelOut {
  ko_res : RetType;
  ko_micros : Z;
  ko_out : list Z
}.

(** A kernel, the [std::function] taking [const std::vector<param_type> &],
    [Timer *] and [std::vector<param_type> *] and returning [RetType]: external code whose behaviour may depend on
    every call made before (warm-up effects), on the parameters, on whether
    a timer is given and on the current content of the output buffer. *)
Definition Kernel : Type :=
  list Call -> list Z -> bool -> option (list Z) -> KernelOut.

Record World : Type := mkWorld {
  (** [getenv("MACE_TUNING")] *)
  w_env_tuning : option string;
  (** [getenv("MACE_RUN_PARAMETER_PATH")] *)
  w_env_path : option string;
  (** [param_table_] *)
  w_table : gmap string (list Z);
  (** every kernel invocation, oldest first *)
  w_trace : list Call;
  (** messages of [LOG(WARNING)], oldest first *)
  w_log : list string;
  (** the files on disk *)
  w_files : gmap string (list byte);
  (** whether [std::ofstream] opens a path for writing *)
  w_writable : string -> bool
}.

Definition set_table (t : gmap string (list Z)) (w : World) : World :=
  mkWorld (w_env_tuning w) (w_env_path w) t (w_trace w) (w_log w)
    (w_files w) (w_writable w).

Definition add_call (c : Call) (w : World) : World :=
  mkWorld (w_env_tuning w) (w_env_path w) (w_table w) (w_trace w ++ [c])
    (w_log w) (w_files w) (w_writable w).

Definition log_warning (msg : string) (w : World) : World :=
  mkWorld (w_env_tuning w) (w_env_path w) (w_table w) (w_trace w)
    (w_log w ++ [msg]) (w_files w) (w_writable w).

Definition set_files (fs : gmap string (list byte)) (w : World) : World :=
  mkWorld (w_env_tuning w) (w_env_path w) (w_table w) (w_trace w)
    (w_log w) fs (w_writable w).

(** [func(params, timer, out)]: one call of the kernel, recorded. *)
Definition invoke (func : Kernel) (params : list Z) (timer : bool)
    (out : option (list Z)) (w : World)
    : RetType * Z * option (list Z) * World :=
  let o := func (w_trace w) params timer out in
  let out' := match out with Some _ => Some (ko_out o) | None => None end in
  let micros := int64_wrap (ko_micros o) in
  (ko_res o, micros, out',
   add_call (mkCall params timer out' (ko_res o) micros) w).

(** ** [Run]

    The loop of [Run]: [res = func(params, timer, tuning_result);
    total_time_us += timer->AccumulatedMicros();] repeated [n] times. *)
Fixpoint run_loop (func : Kernel) (params : list Z) (n : nat) (res : RetType)
    (total_time_us : Z) (tuning_result : list Z) (w : World)
    : RetType * Z * list Z * World :=
  match n with
  | O => (res, total_time_us, tuning_result, w)
  | S n' =>
      let '(r, micros, out, w1) := invoke func params true (Some tuning_result) w in
      let tr := match out with Some b => b | None => tuning_result end in
      run_loop func params n' r (int64_wrap (total_time_us + micros)) tr w1
  end.

(** [Run(func, params, timer, num_runs, &time_us, &tuning_result)]: the
    caller's [timer] is dereferenced, so it is non-null here.  Returns
    the last result, [*time_us], the final [tuning_result] and the world.
    [Tune] calls it with [num_runs] 2 and 10 only; for [num_runs = 0] the
    source divides by zero, which the model does not represent. *)
Definition Run (func : Kernel) (params : list Z) (num_runs : nat)
    (tuning_result : list Z) (w : World) : RetType * Q * list Z * World :=
  let '(res, total_time_us, tr, w1) :=
    run_loop func params num_runs RetType_init 0 tuning_result w in
  (res, total_time_us # Pos.of_nat num_runs, tr, w1).

(** ** [Tune]

    The candidate loop.  [opt_time], [*opt_params] and [res] are the best
    time, the in/out best parameters and the best result; [tuning_result]
    is the one output buffer shared by all runs. *)
Fixpoint tune_loop (func : Kernel) (params : list (list Z)) (opt_time : xdouble)
    (opt_params : list Z) (res : RetType) (tuning_result : list Z) (w : World)
    : RetType * xdouble * list Z * World :=
  match params with
  | [] => (res, opt_time, opt_params, w)
  | param :: rest =>
      (* warm up *)
      let '(_, _, tr1, w1) := Run func param 2 tuning_result w in
      (* run *)
      let '(tmp_res, tmp_time, tr2, w2) := Run func param 10 tr1 w1 in
      (* Check the execution time *)
      if xlt (XFin tmp_time) opt_time
      then tune_loop func rest (XFin tmp_time) tr2 tmp_res tr2 w2
      else tune_loop func rest opt_time opt_params res tr2 w2
  end.

(** [Tune(param_generator, func, timer, opt_params)]: the generator is
    called once and yields [params].  Returns [res], the final [opt_time]
    (a local of [Tune]), [*opt_params] and the world. *)
Definition Tune (func : Kernel) (params : list (list Z)) (opt_params : list Z)
    (w : World) : RetType * xdouble * list Z * World :=
  tune_loop func params (XFin dbl_max) opt_params RetType_init [] w.

(** ** [TuneOrRun]

    [param_generator] is [None] for a null [std::function]; otherwise it
    holds the candidates the generator returns.  The [VLOG(3)] output is
    not modelled. *)
Definition TuneOrRun (param_key : string) (default_param : list Z)
    (param_generator : option (list (list Z))) (func : Kernel) (w : World)
    : RetType * World :=
  let obfucated_param_key := obfuscate param_key in
  match IsTuning (w_env_tuning w), param_generator with
  | true, Some params =>
      (* tune *)
      let '(res, _, opt_param, w1) := Tune func params default_param w in
      (res, set_table (<[obfucated_param_key := opt_param]> (w_table w1)) w1)
  | _, _ =>
      (* run *)
      match w_table w !! obfucated_param_key with
      | Some p =>
          let '(r, _, _, w1) := invoke func p false None w in (r, w1)
      | None =>
          let w0 := if MACE_DISABLE_NO_TUNING_WARNING then w
                    else log_warning ("Fallback to default parameter: " ++ param_key) w in
          let '(r, _, _, w1) := invoke func default_param false None w0 in (r, w1)
      end
  end.

(** ** Persistence *)

(** Modelled from the spec: [GetTuningParams(path, param_table)], declared
    [extern] in the header.  A null path disables persistence (success,
    nothing read); a missing or unreadable file is a failure that leaves
    the table as it was; otherwise the entries read are inserted. *)
Definition GetTuningParams (path : option string) (w : World)
    (param_table : gmap string (list Z)) : bool * gmap string (list Z) :=
  match path with
  | None => (true, param_table)
  | Some p =>
      match w_files w !! p with
      | None => (false, param_table)
      | Some bs =>
          match read_table bs with
          | None => (false, param_table)
          | Some es => (true, foldr (fun kv m => <[kv.1 := kv.2]> m) param_table es)
          end
      end
  end.

(** [ReadRunParamters] (the source's spelling). *)
Definition ReadRunParamters (path_ : option string) (w : World) : World :=
  let '(success, t) := GetTuningParams path_ w (w_table w) in
  let w1 := set_table t w in
  if success then w1 else log_warning "Get run parameter failed." w1.

(** The constructor: [path_ = getenv("MACE_RUN_PARAMETER_PATH")], an empty
    [param_table_], then [ReadRunParamters()].  Returns [path_]. *)
Definition Tuner_init (w : World) : option string * World :=
  let path_ := w_env_path w in
  (path_, ReadRunParamters path_ (set_table ∅ w)).

(** [WriteRunParameters], run by the destructor.  The iteration order of
    the [unordered_map] is taken to be [map_to_list]'s. *)
Definition WriteRunParameters (path_ : option string) (w : World) : World :=
  match path_ with
  | None => w
  | Some p =>
      if w_writable w p
      then set_files (<[p := serialize_table (map_to_list (w_table w))]> (w_files w)) w
      else log_warning "Write run parameter file failed." w
  end.

(** ** Observations used in the statements *)

Definition add_calls (cs : list Call) (w : World) : World :=
  mkWorld (w_env_tuning w) (w_env_path w) (w_table w) (w_trace w ++ cs)
    (w_log w) (w_files w) (w_writable w).

(** The output buffer after a call ([] for a null buffer). *)
Definition call_buffer (c : Call) : list Z := from_option id [] (call_out c).

(** [total_time_us] of [Run] after adding the readings [ms] in order. *)
Definition int64_total (ms : list Z) : Z :=
  fold_left (fun total m => int64_wrap (total + m)) ms 0.

(** The calls a candidate [param] makes in one session: 12 timed calls of
    the kernel with [param] and the shared output buffer. *)
Definition candidate_run (param : list Z) (seg : list Call) : Prop :=
  length seg = 12%nat /\
  Forall (fun c => call_params c = param /\ call_timer c = true /\ is_Some (call_out c)) seg.

(** The time of a candidate's calls: the mean of the readings of all but
    the first two calls. *)
Definition measured_time (seg : list Call) : Q :=
  int64_total (map call_micros (drop 2 seg)) # 10.

(** The result returned and the output buffer left by the last call. *)
Definition seg_res (seg : list Call) : RetType :=
  from_option call_res RetType_init (last seg).

Definition seg_buffer (seg : list Call) : list Z :=
  from_option call_buffer [] (last seg).

(** Candidate [i] has a minimal measured time, and a strictly smaller one
    than every candidate before it. *)
Definition is_winner (segs : list (list Call)) (i : nat) : Prop :=
  forall j s_i s_j, segs !! i = Some s_i -> segs !! j = Some s_j ->
    (measured_time s_i <= measured_time s_j)%Q /\
    ((j < i)%nat -> (measured_time s_i < measured_time s_j)%Q).

(** The update of [res], [opt_time] and [*opt_params] by one candidate. *)
Definition select (best : RetType * xdouble * list Z) (seg : list Call)
    : RetType * xdouble * list Z :=
  let '(res, opt_time, opt_params) := best in
  if xlt (XFin (measured_time seg)) opt_time
  then (seg_res seg, XFin (measured_time seg), seg_buffer seg)
  else best.

(** A kernel that never writes its output buffer. *)
Definition never_writes (func : Kernel) : Prop :=
  forall hist params timer buf, ko_out (func hist params timer (Some buf)) = buf.

(** A sequence of calls of [TuneOrRun] in one process. *)
Fixpoint TuneOrRun_seq
    (calls : list (string * list Z * option (list (list Z)) * Kernel))
    (w : World) : list RetType * World :=
  match calls with
  | [] => ([], w)
  | (key, dflt, gen, func) :: rest =>
      let '(r, w1) := TuneOrRun key dflt gen func w in
      let '(rs, w2) := TuneOrRun_seq rest w1 in
      (r :: rs, w2)
  end.

(** The life of the tuner in one process: [Tuner::Get()] constructs the
    singleton (which reads [MACE_RUN_PARAMETER_PATH] and loads the table),
    the program calls [TuneOrRun] in sequence, and at exit the destructor
    runs [WriteRunParameters()] with the [path_] read at construction. *)
Definition Tuner_process
    (calls : list (string * list Z * option (list (list Z)) * Kernel))
    (w : World) : list RetType * World :=
  let '(path_, w1) := Tuner_init w in
  let '(rs, w2) := TuneOrRun_seq calls w1 in
  (rs, WriteRunParameters path_ w2).

End Tuner.

(** A table entry that fits the persisted format: key and payload sizes
    fit an [int32_t], every value is an [unsigned int]. *)
Definition wf_entry (kp : string * list Z) : Prop :=
  Z.of_nat (String.length kp.1) < 2 ^ 31 /\
  Z.of_nat (length kp.2 * sizeof_param_type) < 2 ^ 31 /\
  Forall (fun v => 0 <= v < 2 ^ 32) kp.2.

(** ** Concrete instances *)

Definition test_world : @World nat :=
  mkWorld None None ∅ [] [] ∅ (fun _ => true).

(** A kernel returning the number of earlier calls, whose timer reads
    [time_of params] microseconds, and which writes its parameters to the
    output buffer. *)
Definition bench_kernel (time_of : list Z -> Z) : @Kernel nat :=
  fun hist p _ _ => mkKernelOut (length hist) (time_of p) p.

(** Candidates [[1]], [[2]] and [[3]] take 50, 10 and 90 microseconds. *)
Definition test_kernel : @Kernel nat :=
  bench_kernel (fun p => match p with [1] => 50 | [2] => 10 | [3] => 90 | _ => 0 end).

(** The table [{("convK3", [8,8,1]), ("gemmTile", [4,16])}]. *)
Definition example_table : gmap string (list Z) :=
  <["convK3" := [8; 8; 1]]> (<["gemmTile" := [4; 16]]> ∅).

(** A process with [MACE_TUNING=1], the example table and a writable disk. *)
Definition tuning_world : @World nat :=
  mkWorld (Some "1") (Some "tuned.bin") example_table [] [] ∅ (fun _ => true).

(** Two calls for a key that is not cached, with different defaults. *)
Definition miss_calls : list (string * list Z * option (list (list Z)) * @Kernel nat) :=
  [("missingKey", [7], None, test_kernel); ("missingKey", [8], Some [[1]], test_kernel)].

(** A kernel that never writes its output buffer. *)
Definition silent_kernel : @Kernel nat :=
  fun hist p _ o => mkKernelOut (length hist) (Z.of_nat (length hist)) (from_option id [] o).

(** * Proofs *)

(** ** Byte encoding *)

Lemma length_le_bytes n z : length (le_bytes n z) = n.
Proof. revert z; induction n as [|n IH]; intros z; simpl; [done | by rewrite IH]. Qed.

Lemma byte_of_Z_spec z : Z.of_N (Byte.to_N (byte_of_Z z)) = z mod 256.
Proof.
  unfold byte_of_Z.
  assert (Hl : Z.land z 255 = z mod 256) by (apply (Z.land_ones z 8); lia).
  destruct (Byte.of_N (Z.to_N (Z.land z 255))) as [b|] eqn:E.
  - apply Byte.to_of_N in E. rewrite E, Hl, Z2N.id; [done|].
    apply Z.mod_pos_bound; lia.
  - exfalso. apply Byte.of_N_None_iff in E.
    rewrite Hl in E. pose proof (Z.mod_pos_bound z 256 ltac:(lia)). lia.
Qed.

Lemma Z_of_le_bytes n z : Z_of_le (le_bytes n z) = z mod 2 ^ (8 * Z.of_nat n).
Proof.
  revert z; induction n as [|n IH]; intros z.
  - simpl. symmetry. apply Z.mod_1_r.
  - cbn [le_bytes Z_of_le]. rewrite byte_of_Z_spec, IH, Z.shiftr_div_pow2 by lia.
    replace (8 * Z.of_nat (S n)) with (8 + 8 * Z.of_nat n) by lia.
    rewrite Z.pow_add_r by lia.
    rewrite (Z.rem_mul_r z (2 ^ 8)); [done | lia |].
    pose proof (Z.pow_pos_nonneg 2 (8 * Z.of_nat n)). lia.
Qed.

Lemma take_le_bytes n z : take n (le_bytes n z) = le_bytes n z.
Proof. apply take_ge. by rewrite length_le_bytes. Qed.

Lemma length_list_byte_of_string s :
  length (list_byte_of_string s) = String.length s.
Proof.
  unfold list_byte_of_string. rewrite length_map.
  induction s as [|c s IH]; simpl; [done | by rewrite IH].
Qed.

Lemma pow_sizeof_int32 : 2 ^ (8 * Z.of_nat sizeof_int32) = 2 ^ 32.
Proof. reflexivity. Qed.

Lemma pow_sizeof_int64 : 2 ^ (8 * Z.of_nat sizeof_int64) = 2 ^ 64.
Proof. reflexivity. Qed.

Lemma pow_sizeof_param_type : 2 ^ (8 * Z.of_nat sizeof_param_type) = 2 ^ 32.
Proof. reflexivity. Qed.

(** ** Reading what the writer wrote *)

Lemma read_bytes_app n l rest :
  n = length l -> read_bytes n (l ++ rest) = Some (l, rest).
Proof.
  intros ->. unfold read_bytes. rewrite decide_True by (rewrite length_app; lia).
  by rewrite take_app_length, drop_app_length.
Qed.

Lemma read_int_le_bytes n z rest :
  read_int n (le_bytes n z ++ rest) = Some (z mod 2 ^ (8 * Z.of_nat n), rest).
Proof.
  unfold read_int. rewrite read_bytes_app by (by rewrite length_le_bytes).
  by rewrite Z_of_le_bytes.
Qed.

Lemma length_payload (params : list Z) :
  length (concat (map (fun param => take sizeof_int32 (param_bytes param)) params))
  = (length params * sizeof_param_type)%nat.
Proof.
  induction params as [|v params IH]; cbn [map concat]; [done|].
  rewrite length_app, IH. unfold param_bytes. rewrite take_le_bytes, length_le_bytes.
  unfold sizeof_int32, sizeof_param_type. simpl. lia.
Qed.

Lemma read_params_payload (params : list Z) rest :
  Forall (fun v => 0 <= v < 2 ^ 32) params ->
  read_params (length params)
    (concat (map (fun param => take sizeof_int32 (param_bytes param)) params) ++ rest)
  = Some (params, rest).
Proof.
  induction 1 as [|v params Hv _ IH]; cbn [map concat length]; [done|].
  rewrite <- app_assoc. unfold param_bytes at 1.
  replace sizeof_int32 with sizeof_param_type at 1 by done.
  rewrite take_le_bytes. cbn [read_params]. rewrite read_int_le_bytes, IH.
  rewrite pow_sizeof_param_type, Z.mod_small; done.
Qed.

Lemma read_entry_write kp rest :
  wf_entry kp -> read_entry (write_entry kp ++ rest) = Some (kp, rest).
Proof.
  destruct kp as [key params]. intros (Hk & Hp & Hv). cbn [fst snd] in *.
  unfold write_entry, read_entry. cbn [fst snd]. rewrite <- !app_assoc.
  rewrite read_int_le_bytes, pow_sizeof_int32, Z.mod_small by lia.
  rewrite read_bytes_app by (by rewrite Nat2Z.id, length_list_byte_of_string).
  rewrite read_int_le_bytes, pow_sizeof_int32, Z.mod_small by lia.
  rewrite read_bytes_app by (by rewrite Nat2Z.id, length_payload).
  rewrite length_payload, Nat.div_mul by (unfold sizeof_param_type; lia).
  rewrite <- (app_nil_r (concat _)), read_params_payload by done.
  by rewrite string_of_list_byte_of_string.
Qed.

Lemma read_entries_write (entries : list (string * list Z)) rest :
  Forall wf_entry entries ->
  read_entries (length entries) (concat (map write_entry entries) ++ rest)
  = Some (entries, rest).
Proof.
  induction 1 as [|kp entries Hkp _ IH]; cbn [map concat length read_entries]; [done|].
  rewrite <- app_assoc, read_entry_write by done. by rewrite IH.
Qed.

Lemma read_table_serialize (entries : list (string * list Z)) :
  Z.of_nat (length entries) < 2 ^ 63 -> Forall wf_entry entries ->
  read_table (serialize_table entries) = Some entries.
Proof.
  intros Hn Hwf. unfold read_table, serialize_table.
  rewrite read_int_le_bytes, pow_sizeof_int64, Z.mod_small by lia.
  rewrite Nat2Z.id, <- (app_nil_r (concat _)), read_entries_write by done.
  done.
Qed.

Section TunerProofs.

Context {RetType : Type} (RetType_init : RetType).
Context (obfuscate : string -> string).
Context (MACE_DISABLE_NO_TUNING_WARNING : bool).

Local Abbreviation World := (@World RetType).
Local Abbreviation Kernel := (@Kernel RetType).
Local Abbreviation Call := (@Call RetType).

(** ** Persistence *)

(** C4: for every entry [(key, params)] of [n] parameters, the writer puts,
    after the [int32] key length and the key bytes, the [int32] payload
    length [n * sizeof(param_type)] and then the [n] values, each as its
    [sizeof(param_type)]-byte object representation, [n * sizeof(param_type)]
    bytes in all. *)
Theorem write_entry_layout (key : string) (params : list Z) :
  write_entry (key, params) =
    le_bytes sizeof_int32 (Z.of_nat (String.length key)) ++
    list_byte_of_string key ++
    le_bytes sizeof_int32 (Z.of_nat (length params * sizeof_param_type)) ++
    concat (map param_bytes params) /\
  length (concat (map param_bytes params)) = (length params * sizeof_param_type)%nat.
Proof.
  assert (Hp : map (fun param => take sizeof_int32 (param_bytes param)) params
               = map param_bytes params).
  { apply map_ext. intros v. apply take_le_bytes. }
  split.
  - unfold write_entry. cbn [fst snd]. by rewrite Hp.
  - rewrite <- Hp. apply length_payload.
Qed.

(** C5: a table whose entries fit the format (every key and payload size
    fits an [int32_t], every value an [unsigned int], fewer than 2^63
    entries), written by [WriteRunParameters] and read back from the
    written file into a fresh table, gives the same table: the same keys,
    the same vectors, hence the same payload lengths. *)
Theorem write_then_read_table (w : World) (p : string) :
  w_writable w p = true ->
  Z.of_nat (size (w_table w)) < 2 ^ 63 ->
  map_Forall (fun k v => wf_entry (k, v)) (w_table w) ->
  GetTuningParams (Some p) (WriteRunParameters (Some p) w) ∅ = (true, w_table w).
Proof.
  intros Hw Hn Hwf. unfold WriteRunParameters. rewrite Hw.
  unfold GetTuningParams. cbn [w_files set_files]. rewrite lookup_insert_eq.
  rewrite read_table_serialize.
  - f_equal. exact (list_to_map_to_list (w_table w)).
  - by rewrite length_map_to_list.
  - apply map_Forall_to_list in Hwf. eapply Forall_impl; [exact Hwf|].
    by intros [k v].
Qed.

Lemma GetTuningParams_set_table path t (w : World) m :
  GetTuningParams path (set_table t w) m = GetTuningParams path w m.
Proof. reflexivity. Qed.

Lemma GetTuningParams_failure path (w : World) m t :
  GetTuningParams path w m = (false, t) -> t = m.
Proof.
  unfold GetTuningParams.
  destruct path as [p|]; [|congruence].
  destruct (w_files w !! p) as [bs|]; [|congruence].
  destruct (read_table bs); congruence.
Qed.

(** C8: loading and saving never fail the program.  Without a path,
    [WriteRunParameters] leaves everything as it was; when the file cannot
    be opened for writing, the only effect is the warning "Write run
    parameter file failed."; when the loader reports a failure, the
    constructor leaves the table empty and its only other effect is the
    warning "Get run parameter failed.".  Each of these functions returns
    a state in every case (no error is propagated). *)
Theorem persistence_degrades_to_warnings :
  (forall w : World, WriteRunParameters None w = w) /\
  (forall (w : World) (p : string), w_writable w p = false ->
     WriteRunParameters (Some p) w = log_warning "Write run parameter file failed." w) /\
  (forall w : World, (GetTuningParams (w_env_path w) w ∅).1 = false ->
     (Tuner_init w).2 = log_warning "Get run parameter failed." (set_table ∅ w) /\
     w_table (Tuner_init w).2 = ∅).
Proof.
  split; [done|]. split.
  - intros w p Hw. unfold WriteRunParameters. by rewrite Hw.
  - intros w Hfail. unfold Tuner_init, ReadRunParamters.
    cbn [w_table set_table]. rewrite GetTuningParams_set_table.
    destruct (GetTuningParams (w_env_path w) w ∅) as [ok t] eqn:E.
    cbn in Hfail. subst ok. apply GetTuningParams_failure in E. subst t.
    split; reflexivity.
Qed.

(** ** Kernel invocations *)

Lemma add_calls_nil (w : World) : add_calls [] w = w.
Proof. destruct w; unfold add_calls; cbn. by rewrite app_nil_r. Qed.

Lemma add_calls_app cs1 cs2 (w : World) :
  add_calls cs2 (add_calls cs1 w) = add_calls (cs1 ++ cs2) w.
Proof. unfold add_calls; cbn. by rewrite app_assoc. Qed.

Lemma add_call_add_calls c (w : World) : add_call c w = add_calls [c] w.
Proof. reflexivity. Qed.

Lemma from_option_last_cons {B} (f : Call -> B) (d : B) (c : Call) (l : list Call) :
  from_option f d (last (c :: l)) = from_option f (f c) (last l).
Proof. induction l as [|c' l IH]; [done|]. destruct l; done. Qed.

Lemma from_option_last_cons_eq (c : Call) (l : list Call) :
  last (c :: l) = match last l with Some x => Some x | None => Some c end.
Proof. induction l as [|c' l IH]; [done|]. destruct l; done. Qed.

Lemma fold_left_micros (seg : list Call) total :
  fold_left (fun t c => int64_wrap (t + call_micros c)) seg total
  = fold_left (fun t m => int64_wrap (t + m)) (map call_micros seg) total.
Proof. revert total; induction seg as [|c seg IH]; intros total; simpl; auto. Qed.

Lemma run_loop_spec (func : Kernel) param n res total tr (w : World) :
  exists seg,
    length seg = n /\
    Forall (fun c => call_params c = param /\ call_timer c = true /\ is_Some (call_out c)) seg /\
    (never_writes func -> from_option call_buffer tr (last seg) = tr) /\
    run_loop func param n res total tr w =
      (from_option call_res res (last seg),
       fold_left (fun t c => int64_wrap (t + call_micros c)) seg total,
       from_option call_buffer tr (last seg),
       add_calls seg w).
Proof.
  revert res total tr w; induction n as [|n IH]; intros res total tr w.
  - exists []. split; [done|]. split; [done|]. split; [done|].
    cbn. by rewrite add_calls_nil.
  - cbn [run_loop]. unfold invoke.
    set (o := func (w_trace w) param true (Some tr)).
    set (c := mkCall param true (Some (ko_out o)) (ko_res o) (int64_wrap (ko_micros o))).
    destruct (IH (ko_res o) (int64_wrap (total + int64_wrap (ko_micros o))) (ko_out o)
                 (add_call c w)) as (seg & Hlen & Hall & Hnw & Heq).
    exists (c :: seg). rewrite Heq. split; [|split; [|split]].
    + cbn. by rewrite Hlen.
    + constructor; [|done]. cbn. split; [done|]. split; [done|]. by eexists.
    + intros Hw. rewrite from_option_last_cons. cbn. rewrite Hnw by done.
      apply Hw.
    + rewrite !from_option_last_cons, add_call_add_calls, add_calls_app.
      reflexivity.
Qed.

Lemma Run_spec (func : Kernel) param n tr (w : World) :
  exists seg,
    length seg = n /\
    Forall (fun c => call_params c = param /\ call_timer c = true /\ is_Some (call_out c)) seg /\
    (never_writes func -> from_option call_buffer tr (last seg) = tr) /\
    Run RetType_init func param n tr w =
      (from_option call_res RetType_init (last seg),
       int64_total (map call_micros seg) # Pos.of_nat n,
       from_option call_buffer tr (last seg),
       add_calls seg w).
Proof.
  destruct (run_loop_spec func param n RetType_init 0 tr w) as (seg & H1 & H2 & H3 & H4).
  exists seg. split; [done|]. split; [done|]. split; [done|].
  unfold Run. rewrite H4. unfold int64_total. by rewrite fold_left_micros.
Qed.

Lemma last_app_ne (l1 l2 : list Call) :
  l2 <> [] -> last (l1 ++ l2) = last l2.
Proof.
  intros Hne. induction l1 as [|c l1 IH]; [done|].
  rewrite <- app_comm_cons, from_option_last_cons_eq, IH.
  destruct (last l2) eqn:E; [done|]. by apply last_None in E.
Qed.

(** ** One candidate of a tuning session *)

Lemma tune_step (func : Kernel) param rest opt_time opt_params res tr (w : World) :
  exists seg,
    candidate_run param seg /\
    (never_writes func -> seg_buffer seg = tr) /\
    tune_loop RetType_init func (param :: rest) opt_time opt_params res tr w =
      if xlt (XFin (measured_time seg)) opt_time
      then tune_loop RetType_init func rest (XFin (measured_time seg)) (seg_buffer seg)
             (seg_res RetType_init seg) (seg_buffer seg) (add_calls seg w)
      else tune_loop RetType_init func rest opt_time opt_params res (seg_buffer seg)
             (add_calls seg w).
Proof.
  cbn [tune_loop].
  destruct (Run_spec func param 2 tr w) as (s2 & L2 & F2 & N2 & E2).
  rewrite E2. cbv beta iota.
  set (tr1 := from_option call_buffer tr (last s2)).
  destruct (Run_spec func param 10 tr1 (add_calls s2 w)) as (s10 & L10 & F10 & N10 & E10).
  rewrite E10. cbv beta iota.
  assert (Hne : s10 <> []) by (intros ->; discriminate L10).
  assert (Hc : exists c, last s10 = Some c).
  { destruct (last s10) eqn:E; [eauto|]. apply last_None in E. contradiction. }
  destruct Hc as [c Hlast].
  exists (s2 ++ s10). split; [|split].
  - split.
    + rewrite length_app, L2, L10. reflexivity.
    + apply Forall_app. split; assumption.
  - intros Hw. unfold seg_buffer. rewrite last_app_ne, Hlast by done.
    specialize (N10 Hw). specialize (N2 Hw). rewrite Hlast in N10.
    cbn in N10 |- *. rewrite N10. exact N2.
  - unfold measured_time, seg_buffer, seg_res.
    rewrite drop_app_length' by done. rewrite last_app_ne, Hlast by done.
    rewrite add_calls_app. reflexivity.
Qed.

(** C3: every candidate of a tuning session makes exactly 12 calls of the
    kernel, all with that candidate, a timer and the shared output buffer;
    the time compared with the best one is the mean of the [int64_t]
    timer readings of the last 10 calls only (the first 2 are warm-up and
    their readings are not used), and the candidate's result is the one of
    the last call. *)
Theorem tune_candidate_twelve_calls (func : Kernel) param rest opt_time opt_params res tr
    (w : World) :
  exists seg,
    length seg = 12%nat /\
    Forall (fun c => call_params c = param /\ call_timer c = true /\ is_Some (call_out c)) seg /\
    tune_loop RetType_init func (param :: rest) opt_time opt_params res tr w =
      let tmp_time := int64_total (map call_micros (drop 2 seg)) # 10 in
      let tmp_res := from_option call_res RetType_init (last seg) in
      let w2 := add_calls seg w in
      if xlt (XFin tmp_time) opt_time
      then tune_loop RetType_init func rest (XFin tmp_time) (seg_buffer seg) tmp_res
             (seg_buffer seg) w2
      else tune_loop RetType_init func rest opt_time opt_params res (seg_buffer seg) w2.
Proof.
  destruct (tune_step func param rest opt_time opt_params res tr w)
    as (seg & [Hlen Hall] & _ & E).
  exists seg. split; [done|]. split; [done|]. exact E.
Qed.

(** ** A whole tuning session *)

Lemma select_lt res opt_time opt_params (seg : list Call) :
  xlt (XFin (measured_time seg)) opt_time = true ->
  select RetType_init (res, opt_time, opt_params) seg
  = (seg_res RetType_init seg, XFin (measured_time seg), seg_buffer seg).
Proof. intros X. unfold select. rewrite X. reflexivity. Qed.

Lemma select_nlt res opt_time opt_params (seg : list Call) :
  xlt (XFin (measured_time seg)) opt_time = false ->
  select RetType_init (res, opt_time, opt_params) seg = (res, opt_time, opt_params).
Proof. intros X. unfold select. rewrite X. reflexivity. Qed.

Lemma tune_loop_fold (func : Kernel) params opt_time opt_params res tr (w : World) :
  exists segs,
    Forall2 candidate_run params segs /\
    (never_writes func -> Forall (fun s => seg_buffer s = tr) segs) /\
    tune_loop RetType_init func params opt_time opt_params res tr w =
      let '(res', opt_time', opt_params') :=
        fold_left (select RetType_init) segs (res, opt_time, opt_params) in
      (res', opt_time', opt_params', add_calls (concat segs) w).
Proof.
  revert opt_time opt_params res tr w.
  induction params as [|param rest IH]; intros opt_time opt_params res tr w.
  - exists []. split; [done|]. split; [done|]. cbn. by rewrite add_calls_nil.
  - destruct (tune_step func param rest opt_time opt_params res tr w)
      as (seg & Hrun & Hbuf & E).
    rewrite E. destruct (xlt (XFin (measured_time seg)) opt_time) eqn:X.
    + destruct (IH (XFin (measured_time seg)) (seg_buffer seg) (seg_res RetType_init seg)
                   (seg_buffer seg) (add_calls seg w)) as (segs & F & N & E').
      exists (seg :: segs). split; [by constructor|]. split.
      * intros Hw. constructor; [by apply Hbuf|].
        eapply Forall_impl; [by apply N|]. intros s Hs. rewrite Hs. by apply Hbuf.
      * rewrite E'. cbn [fold_left concat]. rewrite (select_lt _ _ _ _ X).
        rewrite add_calls_app. reflexivity.
    + destruct (IH opt_time opt_params res (seg_buffer seg) (add_calls seg w))
        as (segs & F & N & E').
      exists (seg :: segs). split; [by constructor|]. split.
      * intros Hw. constructor; [by apply Hbuf|].
        eapply Forall_impl; [by apply N|]. intros s Hs. rewrite Hs. by apply Hbuf.
      * rewrite E'. cbn [fold_left concat]. rewrite (select_nlt _ _ _ _ X).
        rewrite add_calls_app. reflexivity.
Qed.

(** ** The first minimum wins *)

Lemma xlt_fin a b : xlt (XFin a) (XFin b) = true <-> (a < b)%Q.
Proof.
  unfold xlt. rewrite Qlt_alt.
  destruct (a ?= b)%Q; split; intros H; congruence.
Qed.

Lemma select_fold_min (segs : list (list Call)) r0 q0 o0 :
  (fold_left (select RetType_init) segs (r0, XFin q0, o0) = (r0, XFin q0, o0) /\
   forall j s, segs !! j = Some s -> (q0 <= measured_time s)%Q)
  \/
  (exists i s, segs !! i = Some s /\ is_winner segs i /\ (measured_time s < q0)%Q /\
     fold_left (select RetType_init) segs (r0, XFin q0, o0)
     = (seg_res RetType_init s, XFin (measured_time s), seg_buffer s)).
Proof.
  revert r0 q0 o0. induction segs as [|s rest IH]; intros r0 q0 o0.
  - left. split; [reflexivity|]. intros j s H. discriminate H.
  - cbn [fold_left]. destruct (xlt (XFin (measured_time s)) (XFin q0)) eqn:X.
    + rewrite (select_lt _ _ _ _ X). apply xlt_fin in X.
      destruct (IH (seg_res RetType_init s) (measured_time s) (seg_buffer s))
        as [[E H]|(i & s' & Hi & W & Lt & E)].
      * right. exists 0%nat, s. split; [reflexivity|]. split; [|split; [exact X|exact E]].
        intros j s_i s_j Hsi Hsj. change (Some s = Some s_i) in Hsi. injection Hsi as <-.
        destruct j as [|j]; [change (Some s = Some s_j) in Hsj|change (rest !! j = Some s_j) in Hsj].
        -- injection Hsj as <-. split; [apply Qle_refl|lia].
        -- split; [exact (H j s_j Hsj)|lia].
      * right. exists (S i), s'. split; [exact Hi|].
        split; [|split; [eapply Qlt_trans; eassumption|exact E]].
        intros j s_i s_j Hsi Hsj. change (rest !! i = Some s_i) in Hsi.
        rewrite Hi in Hsi. injection Hsi as <-.
        destruct j as [|j]; [change (Some s = Some s_j) in Hsj|change (rest !! j = Some s_j) in Hsj].
        -- injection Hsj as <-. split; [apply Qlt_le_weak; exact Lt|intros _; exact Lt].
        -- destruct (W j s' s_j Hi Hsj) as [W1 W2].
           split; [exact W1|intros Hj; apply W2; lia].
    + rewrite (select_nlt _ _ _ _ X).
      assert (Hle : (q0 <= measured_time s)%Q).
      { apply Qnot_lt_le. intros Hlt. apply xlt_fin in Hlt. congruence. }
      destruct (IH r0 q0 o0) as [[E H]|(i & s' & Hi & W & Lt & E)].
      * left. split; [exact E|]. intros [|j] s' Hs; [change (Some s = Some s') in Hs|change (rest !! j = Some s') in Hs].
        -- injection Hs as <-. exact Hle.
        -- exact (H j s' Hs).
      * right. exists (S i), s'. split; [exact Hi|]. split; [|split; [exact Lt|exact E]].
        intros j s_i s_j Hsi Hsj. change (rest !! i = Some s_i) in Hsi.
        rewrite Hi in Hsi. injection Hsi as <-.
        destruct j as [|j]; [change (Some s = Some s_j) in Hsj|change (rest !! j = Some s_j) in Hsj].
        -- injection Hsj as <-.
           split; [apply Qlt_le_weak|intros _]; eapply Qlt_le_trans; eassumption.
        -- destruct (W j s' s_j Hi Hsj) as [W1 W2].
           split; [exact W1|intros Hj; apply W2; lia].
Qed.

Lemma int64_wrap_range z : - 2 ^ 63 <= int64_wrap z < 2 ^ 63.
Proof.
  unfold int64_wrap. assert (H64 : 2 ^ 64 = 2 * 2 ^ 63) by reflexivity.
  pose proof (Z.mod_pos_bound (z + 2 ^ 63) (2 ^ 64) ltac:(lia)). lia.
Qed.

Lemma int64_total_range ms : - 2 ^ 63 <= int64_total ms < 2 ^ 63.
Proof.
  unfold int64_total.
  assert (H : forall a, - 2 ^ 63 <= a < 2 ^ 63 ->
            - 2 ^ 63 <= fold_left (fun total m => int64_wrap (total + m)) ms a < 2 ^ 63).
  { induction ms as [|m ms IH]; intros a Ha; [exact Ha|]. apply IH, int64_wrap_range. }
  apply H. lia.
Qed.

(** Every measured mean is below the initial [opt_time]. *)
Lemma measured_time_lt_dbl_max (seg : list Call) : (measured_time seg < dbl_max)%Q.
Proof.
  unfold measured_time, dbl_max, Qlt. cbn [Qnum Qden inject_Z].
  pose proof (int64_total_range (map call_micros (drop 2 seg))) as [_ H].
  assert (Hb : 2 ^ 63 <= (2 ^ 53 - 1) * 2 ^ 971) by (apply Z.leb_le; vm_compute; reflexivity).
  set (B := (2 ^ 53 - 1) * 2 ^ 971) in *. set (T := 2 ^ 63) in *. lia.
Qed.

Lemma Tune_spec (func : Kernel) params default_param (w : World) :
  params <> [] ->
  let '(res, opt_time, opt_params, w') := Tune RetType_init func params default_param w in
  exists segs i s,
    Forall2 candidate_run params segs /\ w' = add_calls (concat segs) w /\
    segs !! i = Some s /\ is_winner segs i /\
    res = seg_res RetType_init s /\ opt_params = seg_buffer s /\
    opt_time = XFin (measured_time s) /\
    (never_writes func -> seg_buffer s = []).
Proof.
  intros Hne. unfold Tune.
  destruct (tune_loop_fold func params (XFin dbl_max) default_param RetType_init [] w)
    as (segs & F & N & E).
  rewrite E.
  destruct (select_fold_min segs RetType_init dbl_max default_param)
    as [[E1 H]|(i & s & Hi & W & _ & E1)].
  - exfalso. destruct params as [|p ps]; [contradiction|].
    inversion F as [|? s ? ? Hs _]; subst.
    pose proof (H 0%nat s eq_refl) as Hle.
    apply (Qle_not_lt _ _ Hle), measured_time_lt_dbl_max.
  - rewrite E1. cbv beta iota.
    exists segs, i, s. do 7 (split; [first [exact F|exact Hi|exact W|reflexivity]|]).
    intros Hw. specialize (N Hw). rewrite Forall_lookup in N. exact (N i s Hi).
Qed.

(** C2: when the generator yields at least one candidate, [Tune] returns
    the result and the output buffer of a candidate [i] whose measured
    mean time is minimal over all candidates and strictly smaller than the
    time of every candidate before it (first-found tie-break). *)
Theorem tune_selects_first_minimum (func : Kernel) params default_param (w : World) :
  params <> [] ->
  let '(res, opt_time, opt_params, w') := Tune RetType_init func params default_param w in
  exists segs i s,
    Forall2 candidate_run params segs /\ w' = add_calls (concat segs) w /\
    segs !! i = Some s /\ is_winner segs i /\
    res = seg_res RetType_init s /\ opt_params = seg_buffer s /\
    opt_time = XFin (measured_time s).
Proof.
  intros Hne. pose proof (Tune_spec func params default_param w Hne) as H.
  destruct (Tune RetType_init func params default_param w) as [[[res ot] op] w'].
  destruct H as (segs & i & s & H1 & H2 & H3 & H4 & H5 & H6 & H7 & _).
  exists segs, i, s. tauto.
Qed.

(** C6 (as the code has it): with no candidate, [Tune] leaves [opt_time]
    at its initial value [std::numeric_limits<double>::max()] (the largest
    finite double, not +infinity), leaves [*opt_params] at the caller's
    default, calls no kernel and returns the default-initialised result. *)
Theorem tune_no_candidates (func : Kernel) default_param (w : World) :
  Tune RetType_init func [] default_param w = (RetType_init, XFin dbl_max, default_param, w).
Proof. reflexivity. Qed.

(** C9: in tuning mode with a generator that yields no candidate,
    [TuneOrRun] stores the caller's default under the obfuscated key,
    replacing what the table held there. *)
Theorem tune_or_run_empty_generator_stores_default k default_param (func : Kernel)
    (w : World) :
  IsTuning (w_env_tuning w) = true ->
  w_table (TuneOrRun RetType_init obfuscate MACE_DISABLE_NO_TUNING_WARNING
             k default_param (Some []) func w).2
  = <[obfuscate k := default_param]> (w_table w).
Proof. intros Ht. unfold TuneOrRun. rewrite Ht. reflexivity. Qed.

(** C10: after a tuning session with at least one candidate, the vector
    stored under the obfuscated key is the content of the shared output
    buffer after the last call of the winning candidate (first minimal
    measured time); if the kernel never writes the buffer, it is the empty
    vector. *)
Theorem tune_or_run_stores_output_buffer k default_param params (func : Kernel)
    (w : World) :
  IsTuning (w_env_tuning w) = true -> params <> [] ->
  let '(_, w') := TuneOrRun RetType_init obfuscate MACE_DISABLE_NO_TUNING_WARNING
                    k default_param (Some params) func w in
  exists (segs : list (list Call)) i s,
    Forall2 candidate_run params segs /\ segs !! i = Some s /\ is_winner segs i /\
    w_table w' !! obfuscate k = Some (seg_buffer s) /\
    (never_writes func -> w_table w' !! obfuscate k = Some []).
Proof.
  intros Ht Hne. unfold TuneOrRun. rewrite Ht.
  pose proof (Tune_spec func params default_param w Hne) as H.
  destruct (Tune RetType_init func params default_param w) as [[[res ot] op] w1].
  destruct H as (segs & i & s & F & Hw1 & Hi & W & _ & Hop & _ & N).
  cbv beta iota zeta. exists segs, i, s.
  split; [exact F|]. split; [exact Hi|]. split; [exact W|].
  cbn [w_table set_table]. rewrite lookup_insert_eq, Hop.
  split; [reflexivity|]. intros Hnw. by rewrite N.
Qed.

(** ** Replay mode *)

Lemma TuneOrRun_replay k default_param gen (func : Kernel) (w : World) :
  IsTuning (w_env_tuning w) = false \/ gen = None ->
  TuneOrRun RetType_init obfuscate MACE_DISABLE_NO_TUNING_WARNING k default_param gen func w =
  match w_table w !! obfuscate k with
  | Some p =>
      let o := func (w_trace w) p false None in
      (ko_res o, add_calls [mkCall p false None (ko_res o) (int64_wrap (ko_micros o))] w)
  | None =>
      let o := func (w_trace w) default_param false None in
      let w0 := if MACE_DISABLE_NO_TUNING_WARNING then w
                else log_warning ("Fallback to default parameter: " ++ k) w in
      (ko_res o, add_calls [mkCall default_param false None (ko_res o)
                              (int64_wrap (ko_micros o))] w0)
  end.
Proof.
  intros H. unfold TuneOrRun.
  destruct H as [H| ->]; [rewrite H|destruct (IsTuning (w_env_tuning w))];
    destruct (w_table w !! obfuscate k); try reflexivity;
    destruct MACE_DISABLE_NO_TUNING_WARNING; reflexivity.
Qed.

(** C1 (as the code has it): the three cases of [TuneOrRun].  In tuning
    mode with a generator, [Tune] runs and its parameters are stored under
    the obfuscated key and its result returned.  Otherwise, on a hit the
    kernel is called exactly once, with the cached vector, no timer and no
    output buffer, and its result returned; on a miss it is called exactly
    once with the default vector, and the warning "Fallback to default
    parameter: <key>" is logged unless the build defines
    [MACE_DISABLE_NO_TUNING_WARNING]. *)
Theorem tune_or_run_cases k default_param gen (func : Kernel) (w : World) :
  (forall params, IsTuning (w_env_tuning w) = true -> gen = Some params ->
     TuneOrRun RetType_init obfuscate MACE_DISABLE_NO_TUNING_WARNING k default_param gen func w =
       let '(res, _, opt_param, w1) := Tune RetType_init func params default_param w in
       (res, set_table (<[obfuscate k := opt_param]> (w_table w1)) w1)) /\
  ((IsTuning (w_env_tuning w) = false \/ gen = None) ->
   forall p, w_table w !! obfuscate k = Some p ->
     let o := func (w_trace w) p false None in
     TuneOrRun RetType_init obfuscate MACE_DISABLE_NO_TUNING_WARNING k default_param gen func w =
       (ko_res o, add_calls [mkCall p false None (ko_res o) (int64_wrap (ko_micros o))] w)) /\
  ((IsTuning (w_env_tuning w) = false \/ gen = None) ->
   w_table w !! obfuscate k = None ->
     let o := func (w_trace w) default_param false None in
     let w0 := if MACE_DISABLE_NO_TUNING_WARNING then w
               else log_warning ("Fallback to default parameter: " ++ k) w in
     TuneOrRun RetType_init obfuscate MACE_DISABLE_NO_TUNING_WARNING k default_param gen func w =
       (ko_res o, add_calls [mkCall default_param false None (ko_res o)
                               (int64_wrap (ko_micros o))] w0)).
Proof.
  split; [|split].
  - intros params Ht ->. unfold TuneOrRun. rewrite Ht. reflexivity.
  - intros H p Hp. rewrite (TuneOrRun_replay _ _ _ _ _ H), Hp. reflexivity.
  - intros H Hn. rewrite (TuneOrRun_replay _ _ _ _ _ H), Hn. reflexivity.
Qed.

Lemma replay_step k default_param gen (func : Kernel) (w : World) v :
  IsTuning (w_env_tuning w) = false \/ gen = None ->
  let w' := (TuneOrRun RetType_init obfuscate MACE_DISABLE_NO_TUNING_WARNING
               k default_param gen func w).2 in
  w_table w' = w_table w /\ w_env_tuning w' = w_env_tuning w /\
  exists c, w_trace w' = w_trace w ++ [c] /\
    (w_table w !! obfuscate k = Some v -> call_params c = v).
Proof.
  intros H. cbv zeta. rewrite (TuneOrRun_replay _ _ _ _ _ H).
  destruct (w_table w !! obfuscate k) as [p|] eqn:E.
  - cbn. split; [reflexivity|]. split; [reflexivity|].
    eexists. split; [reflexivity|]. intros Hv. cbn. congruence.
  - destruct MACE_DISABLE_NO_TUNING_WARNING; cbn;
      (split; [reflexivity|]; split; [reflexivity|]);
      eexists; (split; [reflexivity|]); intros Hv; discriminate Hv.
Qed.

(** C7: a call of [TuneOrRun] in replay mode (tuning flag off or no
    generator) leaves the table as it was; hence, with the tuning flag off,
    along any sequence of calls every call for key [k] whose obfuscated key
    is cached with [v] makes exactly one kernel call, with [v] itself. *)
Theorem replay_leaves_table_unchanged :
  (forall k default_param gen (func : Kernel) (w : World),
     IsTuning (w_env_tuning w) = false \/ gen = None ->
     w_table (TuneOrRun RetType_init obfuscate MACE_DISABLE_NO_TUNING_WARNING
                k default_param gen func w).2 = w_table w) /\
  (forall calls (w : World) k v,
     IsTuning (w_env_tuning w) = false -> w_table w !! obfuscate k = Some v ->
     let '(_, w') := TuneOrRun_seq RetType_init obfuscate MACE_DISABLE_NO_TUNING_WARNING
                       calls w in
     w_table w' = w_table w /\
     exists invoked : list Call,
       w_trace w' = w_trace w ++ invoked /\
       Forall2 (fun call c => call.1.1.1 = k -> call_params c = v) calls invoked).
Proof.
  split.
  - intros k default_param gen func w H.
    exact (proj1 (replay_step k default_param gen func w [] H)).
  - induction calls as [|[[[key d] gen] func] rest IH]; intros w k v Ht Hv.
    + cbn. split; [reflexivity|]. exists []. rewrite app_nil_r.
      split; [reflexivity|constructor].
    + cbn [TuneOrRun_seq].
      pose proof (replay_step key d gen func w v (or_introl Ht)) as R. cbv zeta in R.
      destruct (TuneOrRun RetType_init obfuscate MACE_DISABLE_NO_TUNING_WARNING
                  key d gen func w) as [r w1].
      cbn [snd] in R. destruct R as (T & Env & c & Tr & Hc).
      specialize (IH w1 k v). rewrite Env, T in IH. specialize (IH Ht Hv).
      destruct (TuneOrRun_seq RetType_init obfuscate MACE_DISABLE_NO_TUNING_WARNING rest w1)
        as [rs w2].
      destruct IH as (T2 & inv & Tr2 & F).
      split; [congruence|]. exists (c :: inv). split.
      * rewrite Tr2, Tr, <- app_assoc. reflexivity.
      * constructor; [|exact F]. cbn. intros ->. exact (Hc Hv).
Qed.

End TunerProofs.

(** ** Further properties of the tuner *)





(** X1: [IsTuning] holds exactly when [MACE_TUNING] is set to the
    one-character string "1" (not "", "0", "11", "true", ...). *)
Theorem IsTuning_iff (tuning : option string) :
  IsTuning tuning = true <-> tuning = Some "1"%string.
Proof.
  split.
  - destruct tuning as [s|]; [|discriminate].
    destruct s as [|c [|c' s]]; cbn; try discriminate.
    destruct (ascii_dec c "1"%char) as [->|]; [reflexivity|discriminate].
  - intros ->. reflexivity.
Qed.

Section TunerExtras.

Context {RetType : Type} (RetType_init : RetType).
Context (obfuscate : string -> string).
Context (MACE_DISABLE_NO_TUNING_WARNING : bool).

Local Abbreviation World := (@World RetType).
Local Abbreviation Kernel := (@Kernel RetType).
Local Abbreviation Call := (@Call RetType).

(** X2: [Run] with [num_runs > 0] calls the kernel exactly [num_runs]
    times, always with the same parameters, a timer and the output
    buffer; it returns the result and the buffer of the last call, and as
    time the [int64_t] total of the readings divided by [num_runs]. *)
Theorem run_repeats_kernel (func : Kernel) param n tr (w : World) :
  (0 < n)%nat ->
  exists seg c,
    length seg = n /\
    Forall (fun c => call_params c = param /\ call_timer c = true /\ is_Some (call_out c)) seg /\
    last seg = Some c /\
    Run RetType_init func param n tr w =
      (call_res c, int64_total (map call_micros seg) # Pos.of_nat n, call_buffer c,
       add_calls seg w).
Proof.
  intros Hn. destruct (Run_spec RetType_init func param n tr w) as (seg & L & F & _ & E).
  destruct (last seg) as [c|] eqn:Hl.
  - exists seg, c. split; [exact L|]. split; [exact F|]. split; [exact Hl|].
    rewrite E. reflexivity.
  - apply last_None in Hl. subst seg. cbn in L. lia.
Qed.

Lemma candidate_run_params p (seg : list Call) :
  candidate_run p seg -> map call_params seg = replicate 12 p.
Proof.
  intros [L F]. rewrite <- L. clear L.
  induction F as [|c seg [Hc _] _ IH]; cbn; [reflexivity|]. by rewrite Hc, IH.
Qed.

Lemma concat_candidate_runs params (segs : list (list Call)) :
  Forall2 candidate_run params segs ->
  map call_params (concat segs) = concat (map (fun p => replicate 12 p) params) /\
  Forall (fun c => call_timer c = true /\ is_Some (call_out c)) (concat segs).
Proof.
  induction 1 as [|p seg params segs Hr _ [IH1 IH2]]; cbn; [split; constructor|].
  rewrite map_app, (candidate_run_params _ _ Hr), IH1. split; [reflexivity|].
  apply Forall_app. split; [|exact IH2].
  destruct Hr as [_ F]. eapply Forall_impl; [exact F|]. intros c (_ & ? & ?). tauto.
Qed.

Lemma Tune_calls (func : Kernel) params default_param (w : World) :
  exists cs,
    (Tune RetType_init func params default_param w).2 = add_calls cs w /\
    map call_params cs = concat (map (fun p => replicate 12 p) params) /\
    Forall (fun c => call_timer c = true /\ is_Some (call_out c)) cs.
Proof.
  unfold Tune.
  destruct (tune_loop_fold RetType_init func params (XFin dbl_max) default_param RetType_init [] w)
    as (segs & F & _ & E).
  rewrite E. destruct (fold_left (select RetType_init) segs (RetType_init, XFin dbl_max, default_param))
    as [[r t] o]. exists (concat segs). split; [reflexivity|].
  exact (concat_candidate_runs _ _ F).
Qed.

Lemma TuneOrRun_tuning k default_param params (func : Kernel) (w : World) :
  IsTuning (w_env_tuning w) = true ->
  exists cs opt_param,
    (TuneOrRun RetType_init obfuscate MACE_DISABLE_NO_TUNING_WARNING
       k default_param (Some params) func w).2
    = set_table (<[obfuscate k := opt_param]> (w_table w)) (add_calls cs w) /\
    map call_params cs = concat (map (fun p => replicate 12 p) params) /\
    Forall (fun c => call_timer c = true /\ is_Some (call_out c)) cs.
Proof.
  intros Ht. destruct (Tune_calls func params default_param w) as (cs & E & M & F).
  unfold TuneOrRun. rewrite Ht.
  destruct (Tune RetType_init func params default_param w) as [[[r t] o] w1].
  cbn in E. subst w1. exists cs, o. split; [reflexivity|]. split; assumption.
Qed.

(** X4: in tuning mode with a generator, [TuneOrRun] calls the kernel
    12 times with each candidate, in generator order, always with a timer
    and the output buffer (never with the cached vector or the default
    unless it is a candidate); its only other effect is to set the entry
    of the obfuscated key: no warning, no file, no other entry changed. *)
Theorem tune_or_run_tuning_effects k default_param params (func : Kernel) (w : World) :
  IsTuning (w_env_tuning w) = true ->
  exists cs opt_param,
    (TuneOrRun RetType_init obfuscate MACE_DISABLE_NO_TUNING_WARNING
       k default_param (Some params) func w).2
    = set_table (<[obfuscate k := opt_param]> (w_table w)) (add_calls cs w) /\
    map call_params cs = concat (map (fun p => replicate 12 p) params) /\
    Forall (fun c => call_timer c = true /\ is_Some (call_out c)) cs.
Proof. intros Ht. exact (TuneOrRun_tuning k default_param params func w Ht). Qed.

Lemma TuneOrRun_frame k default_param gen (func : Kernel) (w : World) :
  let w' := (TuneOrRun RetType_init obfuscate MACE_DISABLE_NO_TUNING_WARNING
               k default_param gen func w).2 in
  delete (obfuscate k) (w_table w') = delete (obfuscate k) (w_table w) /\
  dom (w_table w) ⊆ dom (w_table w') /\
  w_files w' = w_files w /\ w_env_tuning w' = w_env_tuning w /\
  w_env_path w' = w_env_path w /\ w_writable w' = w_writable w /\
  (w_log w' = w_log w \/
   w_log w' = w_log w ++ [("Fallback to default parameter: " ++ k)%string]) /\
  exists cs, w_trace w' = w_trace w ++ cs.
Proof.
  cbv zeta.
  destruct (IsTuning (w_env_tuning w)) eqn:Ht; [destruct gen as [params|]|].
  - destruct (TuneOrRun_tuning k default_param params func w Ht) as (cs & o & E & _).
    rewrite E. cbn [w_table set_table add_calls w_files w_env_tuning w_env_path
                    w_writable w_log w_trace].
    rewrite delete_insert_eq, dom_insert_L.
    split; [reflexivity|]. split; [set_solver|].
    do 4 (split; [reflexivity|]). split; [left; reflexivity|]. exists cs. reflexivity.
  - rewrite (TuneOrRun_replay RetType_init obfuscate MACE_DISABLE_NO_TUNING_WARNING
               _ _ _ _ _ (or_intror eq_refl)).
    destruct (w_table w !! obfuscate k);
      [|destruct MACE_DISABLE_NO_TUNING_WARNING]; cbn;
      (split; [reflexivity|]); (split; [set_solver|]);
      do 4 (split; [reflexivity|]);
      (split; [first [left; reflexivity|right; reflexivity]|]); eexists; reflexivity.
  - rewrite (TuneOrRun_replay RetType_init obfuscate MACE_DISABLE_NO_TUNING_WARNING
               _ _ _ _ _ (or_introl Ht)).
    destruct (w_table w !! obfuscate k);
      [|destruct MACE_DISABLE_NO_TUNING_WARNING]; cbn;
      (split; [reflexivity|]); (split; [set_solver|]);
      do 4 (split; [reflexivity|]);
      (split; [first [left; reflexivity|right; reflexivity]|]); eexists; reflexivity.
Qed.

(** X5: whatever the mode, a call of [TuneOrRun] for key [k] changes the
    table at most at the obfuscated form of [k], and never removes an
    entry. *)
Theorem tune_or_run_table_local k default_param gen (func : Kernel) (w : World) :
  let w' := (TuneOrRun RetType_init obfuscate MACE_DISABLE_NO_TUNING_WARNING
               k default_param gen func w).2 in
  delete (obfuscate k) (w_table w') = delete (obfuscate k) (w_table w) /\
  dom (w_table w) ⊆ dom (w_table w').
Proof.
  destruct (TuneOrRun_frame k default_param gen func w) as (H1 & H2 & _).
  split; assumption.
Qed.

Lemma TuneOrRun_seq_frame calls (w : World) :
  let '(_, w') := TuneOrRun_seq RetType_init obfuscate MACE_DISABLE_NO_TUNING_WARNING
                    calls w in
  dom (w_table w) ⊆ dom (w_table w') /\
  w_files w' = w_files w /\ w_env_tuning w' = w_env_tuning w /\
  w_env_path w' = w_env_path w /\ w_writable w' = w_writable w /\
  exists msgs, w_log w' = w_log w ++ msgs /\
    Forall (fun m => exists key, m = ("Fallback to default parameter: " ++ key)%string) msgs.
Proof.
  revert w. induction calls as [|[[[key d] gen] func] rest IH]; intros w.
  - cbn. split; [set_solver|]. do 4 (split; [reflexivity|]).
    exists []. rewrite app_nil_r. split; [reflexivity|constructor].
  - cbn [TuneOrRun_seq].
    pose proof (TuneOrRun_frame key d gen func w) as Fr. cbv zeta in Fr.
    destruct (TuneOrRun RetType_init obfuscate MACE_DISABLE_NO_TUNING_WARNING
                key d gen func w) as [r w1].
    cbn [snd] in Fr. destruct Fr as (_ & D & Fi & Et & Ep & Wr & Lg & _).
    specialize (IH w1).
    destruct (TuneOrRun_seq RetType_init obfuscate MACE_DISABLE_NO_TUNING_WARNING rest w1)
      as [rs w2].
    destruct IH as (D2 & Fi2 & Et2 & Ep2 & Wr2 & msgs & Lg2 & Fm).
    split; [set_solver|]. split; [congruence|]. split; [congruence|].
    split; [congruence|]. split; [congruence|].
    destruct Lg as [Lg|Lg].
    + exists msgs. rewrite Lg2, Lg. split; [reflexivity|exact Fm].
    + exists (("Fallback to default parameter: " ++ key)%string :: msgs).
      rewrite Lg2, Lg, <- app_assoc. split; [reflexivity|].
      constructor; [eexists; reflexivity|exact Fm].
Qed.


(** X7: in tuning mode, once [TuneOrRun] has tuned key [k], a later call
    for [k] without a generator (with any default) is a cache hit: it makes
    one kernel call, untimed and without output buffer, with the vector
    just stored, returns its result, and logs nothing. *)
Theorem tuned_key_is_replayed k default_param params (func : Kernel)
    default_param' (func' : Kernel) (w : World) :
  IsTuning (w_env_tuning w) = true ->
  let '(_, w1) := TuneOrRun RetType_init obfuscate MACE_DISABLE_NO_TUNING_WARNING
                    k default_param (Some params) func w in
  let '(r, w2) := TuneOrRun RetType_init obfuscate MACE_DISABLE_NO_TUNING_WARNING
                    k default_param' None func' w1 in
  exists v,
    w_table w1 !! obfuscate k = Some v /\
    r = ko_res (func' (w_trace w1) v false None) /\
    w2 = add_calls [mkCall v false None r
                      (int64_wrap (ko_micros (func' (w_trace w1) v false None)))] w1.
Proof.
  intros Ht. destruct (TuneOrRun_tuning k default_param params func w Ht) as (cs & o & E & _).
  destruct (TuneOrRun RetType_init obfuscate MACE_DISABLE_NO_TUNING_WARNING
              k default_param (Some params) func w) as [r1 w1].
  cbn [snd] in E. subst w1.
  rewrite (TuneOrRun_replay RetType_init obfuscate MACE_DISABLE_NO_TUNING_WARNING
             _ _ _ _ _ (or_intror eq_refl)).
  cbn [w_table set_table]. rewrite lookup_insert_eq. cbv beta iota zeta.
  exists o. split; [reflexivity|]. split; reflexivity.
Qed.

(** X8: with tuning off, a cache miss does not fill the table: along a
    sequence of calls for a key whose obfuscated form is not cached, each
    call makes one untimed kernel call with its own default vector, the
    table stays as it was, and every call logs the fallback warning again
    (no warning at all in a build defining
    [MACE_DISABLE_NO_TUNING_WARNING]). *)
Theorem misses_are_not_cached calls k (w : World) :
  IsTuning (w_env_tuning w) = false ->
  w_table w !! obfuscate k = None ->
  Forall (fun call => call.1.1.1 = k) calls ->
  let '(_, w') := TuneOrRun_seq RetType_init obfuscate MACE_DISABLE_NO_TUNING_WARNING
                    calls w in
  w_table w' = w_table w /\
  w_log w' = w_log w ++
    (if MACE_DISABLE_NO_TUNING_WARNING then []
     else replicate (length calls) ("Fallback to default parameter: " ++ k)%string) /\
  exists cs : list Call,
    w_trace w' = w_trace w ++ cs /\
    map call_params cs = map (fun call => call.1.1.2) calls /\
    Forall (fun c => call_timer c = false /\ call_out c = None) cs.
Proof.
  intros Ht Hk Hcalls. revert w Ht Hk.
  induction Hcalls as [|[[[key d] gen] func] rest Hkey _ IH]; intros w Ht Hk.
  - cbn. split; [reflexivity|]. split.
    + destruct MACE_DISABLE_NO_TUNING_WARNING; rewrite app_nil_r; reflexivity.
    + exists []. rewrite app_nil_r. split; [reflexivity|]. split; constructor.
  - cbn in Hkey. subst key. cbn [TuneOrRun_seq].
    rewrite (TuneOrRun_replay RetType_init obfuscate MACE_DISABLE_NO_TUNING_WARNING
               _ _ _ _ _ (or_introl Ht)), Hk.
    cbv beta iota zeta.
    set (o := func (w_trace w) d false None).
    set (c := mkCall d false None (ko_res o) (int64_wrap (ko_micros o))).
    set (w0 := if MACE_DISABLE_NO_TUNING_WARNING then w
               else log_warning ("Fallback to default parameter: " ++ k) w).
    assert (E0 : w_table w0 = w_table w /\ w_env_tuning w0 = w_env_tuning w /\
                 w_trace w0 = w_trace w /\
                 w_log w0 = w_log w ++ (if MACE_DISABLE_NO_TUNING_WARNING then []
                   else [("Fallback to default parameter: " ++ k)%string])).
    { unfold w0. destruct MACE_DISABLE_NO_TUNING_WARNING; cbn;
        [rewrite app_nil_r|]; repeat split. }
    destruct E0 as (T0 & Et0 & Tr0 & L0).
    specialize (IH (add_calls [c] w0)). cbn [w_env_tuning w_table add_calls] in IH.
    rewrite Et0, T0 in IH. specialize (IH Ht Hk).
    destruct (TuneOrRun_seq RetType_init obfuscate MACE_DISABLE_NO_TUNING_WARNING
                rest (add_calls [c] w0)) as [rs w2].
    destruct IH as (T2 & L2 & cs & Tr2 & M2 & F2).
    split; [exact T2|]. split.
    + rewrite L2. cbn [w_log add_calls]. rewrite L0, <- app_assoc.
      destruct MACE_DISABLE_NO_TUNING_WARNING; reflexivity.
    + exists (c :: cs). split; [|split].
      * rewrite Tr2. cbn [w_trace add_calls]. rewrite Tr0, <- app_assoc. reflexivity.
      * cbn. rewrite M2. reflexivity.
      * constructor; [split; reflexivity|exact F2].
Qed.

Lemma length_write_entry kp :
  length (write_entry kp) = (8 + String.length kp.1 + 4 * length kp.2)%nat.
Proof.
  unfold write_entry. rewrite !length_app, !length_le_bytes, length_list_byte_of_string.
  rewrite length_payload. unfold sizeof_int32, sizeof_param_type. lia.
Qed.

(** X9: when the file can be opened, [WriteRunParameters] replaces that
    one file and changes nothing else; the file starts with the number of
    entries as 8 little-endian bytes, and its length is 8 plus, per entry,
    8 bytes of sizes, the key bytes and 4 bytes per parameter. *)
Theorem write_run_parameters_file (w : World) (p : string) :
  w_writable w p = true ->
  exists bytes,
    WriteRunParameters (Some p) w = set_files (<[p := bytes]> (w_files w)) w /\
    take 8 bytes = le_bytes 8 (Z.of_nat (size (w_table w))) /\
    length bytes =
      (8 + foldr (fun kv n => 8 + String.length kv.1 + 4 * length kv.2 + n) 0
             (map_to_list (w_table w)))%nat.
Proof.
  intros Hw. exists (serialize_table (map_to_list (w_table w))).
  split; [unfold WriteRunParameters; rewrite Hw; reflexivity|]. split.
  - unfold serialize_table. rewrite length_map_to_list.
    rewrite take_app_length'; [reflexivity|]. by rewrite length_le_bytes.
  - unfold serialize_table. rewrite length_app, length_le_bytes.
    f_equal. induction (map_to_list (w_table w)) as [|kv es IH]; [reflexivity|].
    cbn [map concat foldr]. rewrite length_app, length_write_entry, IH. lia.
Qed.

Section EchoKernel.

(** A kernel that leaves its parameters in the output buffer of a timed
    call. *)
Variable func : Kernel.
Hypothesis Hecho : forall hist p b, ko_out (func hist p true (Some b)) = p.

Lemma run_loop_echo param n res total tr (w : World) :
  (run_loop func param n res total tr w).1.2 = match n with O => tr | S _ => param end.
Proof.
  revert res total tr w; induction n as [|n IH]; intros res total tr w; [reflexivity|].
  cbn [run_loop]. unfold invoke. cbv beta iota zeta.
  rewrite IH, Hecho. destruct n; reflexivity.
Qed.

Lemma Run_echo param n tr (w : World) :
  (0 < n)%nat -> (Run RetType_init func param n tr w).1.2 = param.
Proof.
  intros Hn. unfold Run. pose proof (run_loop_echo param n RetType_init 0 tr w) as E.
  destruct (run_loop func param n RetType_init 0 tr w) as [[[r t] tr'] w'].
  cbn in E |- *. rewrite E. destruct n; [lia|reflexivity].
Qed.

Lemma tune_loop_echo params opt_time opt_params res tr (w : World) :
  let o := (tune_loop RetType_init func params opt_time opt_params res tr w).1.2 in
  o = opt_params \/ o ∈ params.
Proof.
  revert opt_time opt_params res tr w.
  induction params as [|param rest IH]; intros opt_time opt_params res tr w; cbv zeta.
  - left. reflexivity.
  - cbn [tune_loop].
    destruct (Run RetType_init func param 2 tr w) as [[[r1 t1] tr1] w1].
    pose proof (Run_echo param 10 tr1 w1 ltac:(lia)) as E.
    destruct (Run RetType_init func param 10 tr1 w1) as [[[r2 t2] tr2] w2].
    cbn in E. subst tr2. rewrite elem_of_cons.
    destruct (xlt (XFin t2) opt_time).
    + destruct (IH (XFin t2) param r2 param w2) as [H|H]; cbv zeta in H; tauto.
    + destruct (IH opt_time opt_params res param w2) as [H|H]; cbv zeta in H; tauto.
Qed.

Lemma int64_mean_lt_dbl_max ms : (int64_total ms # 10 < dbl_max)%Q.
Proof.
  unfold dbl_max, Qlt. cbn [Qnum Qden inject_Z].
  pose proof (int64_total_range ms) as [_ H].
  assert (Hb : 2 ^ 63 <= (2 ^ 53 - 1) * 2 ^ 971) by (apply Z.leb_le; vm_compute; reflexivity).
  set (B := (2 ^ 53 - 1) * 2 ^ 971) in *. set (T := 2 ^ 63) in *. lia.
Qed.

(** X10: if the kernel leaves its parameters in the output buffer, the
    vector [Tune] adopts from a non-empty candidate list is one of the
    candidates (never the caller's default unless it is a candidate). *)
Theorem tune_echo_adopts_candidate params default_param (w : World) :
  params <> [] ->
  (Tune RetType_init func params default_param w).1.2 ∈ params.
Proof.
  intros Hne. destruct params as [|param rest]; [contradiction|].
  unfold Tune. cbn [tune_loop].
  destruct (Run RetType_init func param 2 [] w) as [[[r1 t1] tr1] w1].
  pose proof (Run_echo param 10 tr1 w1 ltac:(lia)) as E.
  destruct (Run_spec RetType_init func param 10 tr1 w1) as (seg & _ & _ & _ & Es).
  rewrite Es in E |- *. cbn [fst snd] in E. rewrite E.
  assert (X : xlt (XFin (int64_total (map call_micros seg) # Pos.of_nat 10)) (XFin dbl_max) = true).
  { apply xlt_fin. apply int64_mean_lt_dbl_max. }
  rewrite X. rewrite elem_of_cons.
  destruct (tune_loop_echo rest (XFin (int64_total (map call_micros seg) # Pos.of_nat 10))
              param (from_option call_res RetType_init (last seg)) param (add_calls seg w1))
    as [H|H]; cbv zeta in H; tauto.
Qed.

End EchoKernel.

Lemma ReadRunParamters_frame path_ (w : World) :
  w_files (ReadRunParamters path_ w) = w_files w /\
  w_writable (ReadRunParamters path_ w) = w_writable w /\
  w_env_path (ReadRunParamters path_ w) = w_env_path w.
Proof.
  unfold ReadRunParamters. destruct (GetTuningParams path_ w (w_table w)) as [[|] t];
    repeat split.
Qed.

(** X11: over the whole life of the tuner in a process (construction,
    any calls of [TuneOrRun], destruction), no file is written when
    [MACE_RUN_PARAMETER_PATH] is unset; when it is set, no file other than
    that path is written, and if the path can be opened it ends up holding
    the table as it is at exit. *)
Theorem process_writes_only_parameter_file calls (w : World) :
  let '(_, w') := Tuner_process RetType_init obfuscate MACE_DISABLE_NO_TUNING_WARNING
                    calls w in
  match w_env_path w with
  | None => w_files w' = w_files w
  | Some p =>
      delete p (w_files w') = delete p (w_files w) /\
      (w_writable w p = true ->
       w_files w' !! p = Some (serialize_table (map_to_list (w_table w'))))
  end.
Proof.
  unfold Tuner_process, Tuner_init. cbv beta iota zeta.
  set (w1 := ReadRunParamters (w_env_path w) (set_table ∅ w)).
  destruct (ReadRunParamters_frame (w_env_path w) (set_table ∅ w)) as (F1 & W1 & _).
  fold w1 in F1, W1. cbn [w_files w_writable set_table] in F1, W1.
  pose proof (TuneOrRun_seq_frame calls w1) as S.
  destruct (TuneOrRun_seq RetType_init obfuscate MACE_DISABLE_NO_TUNING_WARNING calls w1)
    as [rs w2].
  destruct S as (_ & F2 & _ & _ & W2 & _).
  destruct (w_env_path w) as [p|].
  - unfold WriteRunParameters. destruct (w_writable w2 p) eqn:Hw.
    + cbn [w_files w_table set_files]. rewrite delete_insert_eq, F2, F1.
      split; [reflexivity|]. intros _. apply lookup_insert_eq.
    + cbn [w_files w_table log_warning]. rewrite F2, F1. split; [reflexivity|].
      intros Hw'. rewrite W2, W1 in Hw. congruence.
  - cbn. congruence.
Qed.

End TunerExtras.

(** * Witnesses and examples *)

Lemma write_then_read_table_witness :
  w_writable tuning_world "tuned.bin" = true /\
  Z.of_nat (size (w_table tuning_world)) < 2 ^ 63 /\
  map_Forall (fun k v => wf_entry (k, v)) (w_table tuning_world) /\
  GetTuningParams (Some "tuned.bin") (WriteRunParameters (Some "tuned.bin") tuning_world) ∅
  = (true, w_table tuning_world).
Proof.
  assert (H1 : w_writable tuning_world "tuned.bin" = true) by reflexivity.
  assert (H2 : Z.of_nat (size (w_table tuning_world)) < 2 ^ 63) by (vm_compute; reflexivity).
  assert (H3 : map_Forall (fun k v => wf_entry (k, v)) (w_table tuning_world)).
  { cbn [w_table tuning_world example_table].
    apply map_Forall_insert_2; [|apply map_Forall_insert_2; [|apply map_Forall_empty]];
      unfold wf_entry; cbn; (split; [lia|split; [lia|repeat constructor; lia]]). }
  split; [exact H1|]. split; [exact H2|]. split; [exact H3|].
  exact (write_then_read_table (RetType := nat) tuning_world "tuned.bin" H1 H2 H3).
Defined.

Lemma tune_selects_first_minimum_witness :
  [[1]; [2]; [3]] <> ([] : list (list Z)) /\
  let '(res, opt_time, opt_params, w') := Tune 0%nat test_kernel [[1]; [2]; [3]] [7] test_world in
  exists segs i s,
    Forall2 candidate_run [[1]; [2]; [3]] segs /\ w' = add_calls (concat segs) test_world /\
    segs !! i = Some s /\ is_winner segs i /\
    res = seg_res 0%nat s /\ opt_params = seg_buffer s /\
    opt_time = XFin (measured_time s).
Proof.
  assert (H : [[1]; [2]; [3]] <> ([] : list (list Z))) by discriminate.
  split; [exact H|].
  exact (tune_selects_first_minimum 0%nat test_kernel [[1]; [2]; [3]] [7] test_world H).
Defined.

Lemma tune_or_run_empty_generator_stores_default_witness :
  IsTuning (w_env_tuning tuning_world) = true /\
  w_table (TuneOrRun 0%nat (fun s => s) false "convK3" [7] (Some []) test_kernel tuning_world).2
  = <["convK3" := [7]]> (w_table tuning_world).
Proof.
  assert (H : IsTuning (w_env_tuning tuning_world) = true) by reflexivity.
  split; [exact H|].
  exact (tune_or_run_empty_generator_stores_default 0%nat (fun s => s) false
           "convK3" [7] test_kernel tuning_world H).
Defined.

Lemma tune_or_run_stores_output_buffer_witness :
  IsTuning (w_env_tuning tuning_world) = true /\
  [[1]; [2]; [3]] <> ([] : list (list Z)) /\
  let '(_, w') := TuneOrRun 0%nat (fun s => s) false "convK3" [7] (Some [[1]; [2]; [3]])
                    silent_kernel tuning_world in
  exists (segs : list (list (@Call nat))) i s,
    Forall2 candidate_run [[1]; [2]; [3]] segs /\ segs !! i = Some s /\ is_winner segs i /\
    w_table w' !! "convK3" = Some (seg_buffer s) /\
    (never_writes silent_kernel -> w_table w' !! "convK3" = Some []).
Proof.
  assert (H1 : IsTuning (w_env_tuning tuning_world) = true) by reflexivity.
  assert (H2 : [[1]; [2]; [3]] <> ([] : list (list Z))) by discriminate.
  split; [exact H1|]. split; [exact H2|].
  exact (tune_or_run_stores_output_buffer 0%nat (fun s => s) false "convK3" [7]
           [[1]; [2]; [3]] silent_kernel tuning_world H1 H2).
Defined.

(** C1: built with [MACE_DISABLE_NO_TUNING_WARNING], a cache miss outside
    tuning mode runs the kernel with the default and logs no warning. *)
Lemma tune_or_run_miss_without_warning :
  let '(_, w') := TuneOrRun 0%nat (fun s => s) true "missingKey" [7] None
                    test_kernel test_world in
  map call_params (w_trace w') = [[7]] /\ w_log w' = [].
Proof. vm_compute. split; reflexivity. Qed.

(** C6: with no candidate, the best time [Tune] ends with is not +infinity. *)
Lemma tune_no_candidates_time_not_infinity :
  let '(_, opt_time, _, _) := Tune 0%nat test_kernel [] [7] test_world in
  opt_time <> XPosInf.
Proof. cbn. discriminate. Qed.

(** The examples of the spec. *)

Example tune_example_fastest :
  (Tune 0%nat test_kernel [[1]; [2]; [3]] [7] test_world).1.2 = [2].
Proof. vm_compute. reflexivity. Qed.

Example tune_example_tie_first :
  (Tune 0%nat (bench_kernel (fun _ => 10)) [[2]; [3]] [7] test_world).1.2 = [2].
Proof. vm_compute. reflexivity. Qed.

Example tune_example_twelve_calls :
  length (w_trace (Tune 0%nat test_kernel [[1]] [7] test_world).2) = 12%nat.
Proof. vm_compute. reflexivity. Qed.

Example tune_or_run_example_fallback :
  let '(_, w') := TuneOrRun 0%nat (fun s => s) false "missingKey" [7] None
                    test_kernel test_world in
  map call_params (w_trace w') = [[7]] /\
  w_log w' = ["Fallback to default parameter: missingKey"%string].
Proof. vm_compute. split; reflexivity. Qed.

Example tune_or_run_example_write_through :
  let '(_, w') := TuneOrRun 0%nat (fun s => s) false "conv" [0] (Some [[1]; [5]])
                    (bench_kernel (fun p => match p with [5] => 1 | _ => 5 end))
                    tuning_world in
  w_table w' !! "conv" = Some [5] /\
  (GetTuningParams (Some "tuned.bin") (WriteRunParameters (Some "tuned.bin") w') ∅).2
    !! "conv" = Some [5].
Proof. vm_compute. split; reflexivity. Qed.

(** Witnesses of the further properties. *)

Lemma run_repeats_kernel_witness :
  (0 < 10)%nat /\
  exists seg c,
    length seg = 10%nat /\
    Forall (fun c => call_params c = [2] /\ call_timer c = true /\ is_Some (call_out c)) seg /\
    last seg = Some c /\
    Run 0%nat test_kernel [2] 10 [] test_world =
      (call_res c, int64_total (map call_micros seg) # Pos.of_nat 10, call_buffer c,
       add_calls seg test_world).
Proof.
  assert (H : (0 < 10)%nat) by lia.
  split; [exact H|].
  exact (run_repeats_kernel 0%nat test_kernel [2] 10 [] test_world H).
Defined.

Lemma tune_or_run_tuning_effects_witness :
  IsTuning (w_env_tuning tuning_world) = true /\
  exists cs opt_param,
    (TuneOrRun 0%nat (fun s => s) false "convK3" [7] (Some [[1]; [2]; [3]])
       test_kernel tuning_world).2
    = set_table (<["convK3" := opt_param]> (w_table tuning_world)) (add_calls cs tuning_world) /\
    map call_params cs = concat (map (fun p => replicate 12 p) [[1]; [2]; [3]]) /\
    Forall (fun c => call_timer c = true /\ is_Some (call_out c)) cs.
Proof.
  assert (H : IsTuning (w_env_tuning tuning_world) = true) by reflexivity.
  split; [exact H|].
  exact (tune_or_run_tuning_effects 0%nat (fun s => s) false "convK3" [7]
           [[1]; [2]; [3]] test_kernel tuning_world H).
Defined.

Lemma tuned_key_is_replayed_witness :
  IsTuning (w_env_tuning tuning_world) = true /\
  let '(_, w1) := TuneOrRun 0%nat (fun s => s) false "convK3" [7] (Some [[1]; [2]; [3]])
                    test_kernel tuning_world in
  let '(r, w2) := TuneOrRun 0%nat (fun s => s) false "convK3" [0] None test_kernel w1 in
  exists v,
    w_table w1 !! "convK3" = Some v /\
    r = ko_res (test_kernel (w_trace w1) v false None) /\
    w2 = add_calls [mkCall v false None r
                      (int64_wrap (ko_micros (test_kernel (w_trace w1) v false None)))] w1.
Proof.
  assert (H : IsTuning (w_env_tuning tuning_world) = true) by reflexivity.
  split; [exact H|].
  exact (tuned_key_is_replayed 0%nat (fun s => s) false "convK3" [7] [[1]; [2]; [3]]
           test_kernel [0] test_kernel tuning_world H).
Defined.

Lemma misses_are_not_cached_witness :
  IsTuning (w_env_tuning test_world) = false /\
  w_table test_world !! "missingKey" = None /\
  Forall (fun call => call.1.1.1 = "missingKey"%string) miss_calls /\
  let '(_, w') := TuneOrRun_seq 0%nat (fun s => s) false miss_calls test_world in
  w_table w' = w_table test_world /\
  w_log w' = w_log test_world ++
    (if false then []
     else replicate (length miss_calls) ("Fallback to default parameter: " ++ "missingKey")%string) /\
  exists cs : list (@Call nat),
    w_trace w' = w_trace test_world ++ cs /\
    map call_params cs = map (fun call => call.1.1.2) miss_calls /\
    Forall (fun c => call_timer c = false /\ call_out c = None) cs.
Proof.
  assert (H1 : IsTuning (w_env_tuning test_world) = false) by reflexivity.
  assert (H2 : w_table test_world !! "missingKey" = None) by reflexivity.
  assert (H3 : Forall (fun call => call.1.1.1 = "missingKey"%string) miss_calls)
    by (repeat constructor).
  split; [exact H1|]. split; [exact H2|]. split; [exact H3|].
  exact (misses_are_not_cached 0%nat (fun s => s) false miss_calls "missingKey"
           test_world H1 H2 H3).
Defined.

Lemma write_run_parameters_file_witness :
  w_writable tuning_world "tuned.bin" = true /\
  exists bytes,
    WriteRunParameters (Some "tuned.bin") tuning_world
    = set_files (<["tuned.bin" := bytes]> (w_files tuning_world)) tuning_world /\
    take 8 bytes = le_bytes 8 (Z.of_nat (size (w_table tuning_world))) /\
    length bytes =
      (8 + foldr (fun kv n => 8 + String.length kv.1 + 4 * length kv.2 + n) 0
             (map_to_list (w_table tuning_world)))%nat.
Proof.
  assert (H : w_writable tuning_world "tuned.bin" = true) by reflexivity.
  split; [exact H|].
  exact (write_run_parameters_file tuning_world "tuned.bin" H).
Defined.

Lemma tune_echo_adopts_candidate_witness :
  (forall hist p b, ko_out (test_kernel hist p true (Some b)) = p) /\
  [[1]; [2]; [3]] <> ([] : list (list Z)) /\
  (Tune 0%nat test_kernel [[1]; [2]; [3]] [7] test_world).1.2 ∈ [[1]; [2]; [3]].
Proof.
  assert (H1 : forall hist p b, ko_out (test_kernel hist p true (Some b)) = p)
    by (intros; reflexivity).
  assert (H2 : [[1]; [2]; [3]] <> ([] : list (list Z))) by discriminate.
  split; [exact H1|]. split; [exact H2|].
  exact (tune_echo_adopts_candidate 0%nat test_kernel H1 [[1]; [2]; [3]] [7] test_world H2).
Defined.
